(** * Amortization engine of CredX ([src/app/lib/calculator.ts])

    Shallow embedding of the loan calculator.  A [Decimal] of decimal.js is
    modelled by [num := option R]: [Some x] is a finite value computed in
    exact real arithmetic, [None] is a non-finite value (NaN or an
    infinity) that decimal.js produces on a division by zero, the
    logarithm of a non-positive number, or a zero base raised to a
    negative power.  Comparisons against a non-finite value are [false],
    as [lt], [lte] and [gt] of decimal.js are on NaN; an infinity is
    treated like NaN, so the model does not order infinities.  The numeric
    arguments the caller passes in are finite reals, and month counts are
    integers ([Z]).

    The model does not round: decimal.js rounds every operation to 20
    significant digits, and [.toNumber()] converts to a binary double, and
    neither is represented here.  The properties below concern the guards
    of the scenarios, the shape of the records they return, and the
    arbitration between the options of Scenario 3.  Equalities between
    computed amounts (the balance at the boundaries, the round trip of the
    Tenure Solver, conservation of costs, monotonicity of the EMI) are not
    stated, since the code's rounding breaks them at concrete inputs. *)

From Stdlib Require Import Reals Lra Lia ZArith List String.
Import ListNotations.
Open Scope R_scope.

Definition num := option R.

(** ** decimal.js operations *)
Module Decimal.

Definition lift2 (f : R -> R -> R) (a b : num) : num :=
  match a, b with
  | Some x, Some y => Some (f x y)
  | _, _ => None
  end.

Definition plus : num -> num -> num := lift2 Rplus.
Definition minus : num -> num -> num := lift2 Rminus.
Definition times : num -> num -> num := lift2 Rmult.

Definition div (a b : num) : num :=
  match a, b with
  | Some x, Some y => if Req_EM_T y 0 then None else Some (x / y)
  | _, _ => None
  end.

(** [ln 0] is -Infinity and [ln] of a negative number is NaN. *)
Definition ln (a : num) : num :=
  match a with
  | Some x => if Rlt_dec 0 x then Some (Rpower.ln x) else None
  | None => None
  end.

(** Integer exponent; [0 ^ (-n)] is Infinity. *)
Definition pow (a : num) (n : Z) : num :=
  match a with
  | Some x =>
      if ((n <? 0)%Z && (if Req_EM_T x 0 then true else false))%bool
      then None else Some (powerRZ x n)
  | None => None
  end.

Definition lt (a b : num) : bool :=
  match a, b with
  | Some x, Some y => if Rlt_dec x y then true else false
  | _, _ => false
  end.

Definition lte (a b : num) : bool :=
  match a, b with
  | Some x, Some y => if Rle_dec x y then true else false
  | _, _ => false
  end.

Definition gt (a b : num) : bool := lt b a.

End Decimal.

(** ** JavaScript [Math] and comparisons on numbers *)
Module Math.

(** [up r] is the integer with [r < up r <= r + 1]; the floor of [r] is
    [up r - 1] and the ceiling is minus the floor of [- r]. *)
Definition Rceil (x : R) : Z := (- (up (- x) - 1))%Z.

Definition ceil (a : num) : num := option_map (fun x => IZR (Rceil x)) a.

(** [Math.max(0, x)]: NaN stays NaN. *)
Definition max0 (a : num) : num := option_map (Rmax 0) a.

End Math.

Definition js_lt (x y : R) : bool := if Rlt_dec x y then true else false.
Definition js_le (x y : R) : bool := if Rle_dec x y then true else false.
Definition js_eq (x y : R) : bool := if Req_EM_T x y then true else false.

(** ** Formulas *)

Definition calculateMonthlyRate (annualRate : R) : num :=
  let annual := Decimal.div (Some annualRate) (Some 100) in
  Decimal.div annual (Some 12).

Definition calculateEMI (principal annualRate : R) (tenureMonths : Z) : num :=
  let P := Some principal in
  let i := calculateMonthlyRate annualRate in
  let onePlusI := Decimal.plus (Some 1) i in
  let onePlusIToN := Decimal.pow onePlusI tenureMonths in
  let numerator := Decimal.times (Decimal.times P i) onePlusIToN in
  let denominator := Decimal.minus onePlusIToN (Some 1) in
  Decimal.div numerator denominator.

Definition calculateOutstandingPrincipal (originalPrincipal annualRate : R)
    (originalTenure monthsPaid : Z) : num :=
  let P := Some originalPrincipal in
  let i := calculateMonthlyRate annualRate in
  let onePlusI := Decimal.plus (Some 1) i in
  let onePlusIToN := Decimal.pow onePlusI originalTenure in
  let onePlusIToK := Decimal.pow onePlusI monthsPaid in
  let numerator := Decimal.times P (Decimal.minus onePlusIToN onePlusIToK) in
  let denominator := Decimal.minus onePlusIToN (Some 1) in
  Decimal.div numerator denominator.

(** ** Scenario 1B: lump-sum prepayment, reduce EMI *)
Module S1B.
Record result := {
  emi : num;
  newEmi : num;
  emiReduction : num;
  outstandingPrincipal : num;
  remainingTenure : Z;
  interestSaved : num;
  totalCostWithoutPrepay : num;
  totalCostWithPrepay : num;
  monthlyBenefit : num }.
End S1B.

Definition calculatePrepaymentScenario1B (originalPrincipal annualRate : R)
    (originalTenure monthsPaid : Z) (prepaymentAmount : R) : S1B.result :=
  let emi := calculateEMI originalPrincipal annualRate originalTenure in
  let outstandingPrincipal :=
    calculateOutstandingPrincipal originalPrincipal annualRate originalTenure monthsPaid in
  let remainingTenure := (originalTenure - monthsPaid)%Z in
  let P_after := Decimal.minus outstandingPrincipal (Some prepaymentAmount) in
  let degenerate :=
    {| S1B.emi := emi;
       S1B.newEmi := Some 0;
       S1B.emiReduction := emi;
       S1B.outstandingPrincipal := outstandingPrincipal;
       S1B.remainingTenure := remainingTenure;
       S1B.interestSaved := Some 0;
       S1B.totalCostWithoutPrepay := Decimal.times emi (Some (IZR remainingTenure));
       S1B.totalCostWithPrepay := Some prepaymentAmount;
       S1B.monthlyBenefit := emi |} in
  if Decimal.lte P_after (Some 0) then degenerate else
  let i := calculateMonthlyRate annualRate in
  let N_remaining := remainingTenure in
  let onePlusI := Decimal.plus (Some 1) i in
  let onePlusIToN := Decimal.pow onePlusI N_remaining in
  let numerator := Decimal.times (Decimal.times P_after i) onePlusIToN in
  let denominator := Decimal.minus onePlusIToN (Some 1) in
  if Decimal.lte denominator (Some 0) then degenerate else
  let newEmi := Decimal.div numerator denominator in
  let emiReduction := Decimal.minus emi newEmi in
  let monthlyBenefit := emiReduction in
  let totalCostWithoutPrepay := Decimal.times emi (Some (IZR remainingTenure)) in
  let totalCostWithPrepay :=
    Decimal.plus (Decimal.times newEmi (Some (IZR remainingTenure))) (Some prepaymentAmount) in
  let interestSaved := Decimal.minus totalCostWithoutPrepay totalCostWithPrepay in
  {| S1B.emi := emi;
     S1B.newEmi := newEmi;
     S1B.emiReduction := emiReduction;
     S1B.outstandingPrincipal := outstandingPrincipal;
     S1B.remainingTenure := remainingTenure;
     S1B.interestSaved := interestSaved;
     S1B.totalCostWithoutPrepay := totalCostWithoutPrepay;
     S1B.totalCostWithPrepay := totalCostWithPrepay;
     S1B.monthlyBenefit := monthlyBenefit |}.

(** ** Scenario 2: recurring extra monthly payment *)
Module S2.
Record result := {
  emi : num;
  effectiveMonthlyPayment : num;
  outstandingPrincipal : num;
  remainingTenure : Z;
  newTenure : num;
  tenureReduced : num;
  interestSaved : num;
  totalExtraPaid : num;
  totalCostWithoutExtra : num;
  totalCostWithExtra : num }.
End S2.

Definition calculateScenario2 (originalPrincipal annualRate : R)
    (originalTenure monthsPaid : Z) (monthlyExtraPayment : R) : S2.result :=
  let emi := calculateEMI originalPrincipal annualRate originalTenure in
  let outstandingPrincipal :=
    calculateOutstandingPrincipal originalPrincipal annualRate originalTenure monthsPaid in
  let remainingTenure := (originalTenure - monthsPaid)%Z in
  let effectiveMonthlyPayment := Decimal.plus emi (Some monthlyExtraPayment) in
  let i := calculateMonthlyRate annualRate in
  let E_plus_extra := effectiveMonthlyPayment in
  let P_outstanding := outstandingPrincipal in
  if js_le monthlyExtraPayment 0 then
    let totalCostWithoutExtra := Decimal.times emi (Some (IZR remainingTenure)) in
    let totalCostWithExtra := Decimal.times emi (Some (IZR remainingTenure)) in
    {| S2.emi := emi;
       S2.effectiveMonthlyPayment := emi;
       S2.outstandingPrincipal := outstandingPrincipal;
       S2.remainingTenure := remainingTenure;
       S2.newTenure := Some (IZR remainingTenure);
       S2.tenureReduced := Some 0;
       S2.interestSaved := Some 0;
       S2.totalExtraPaid := Some 0;
       S2.totalCostWithoutExtra := totalCostWithoutExtra;
       S2.totalCostWithExtra := totalCostWithExtra |}
  else
  let P_outstandingTimesI := Decimal.times P_outstanding i in
  let denominatorInner := Decimal.minus E_plus_extra P_outstandingTimesI in
  if Decimal.lte denominatorInner (Some 0) then
    {| S2.emi := emi;
       S2.effectiveMonthlyPayment := effectiveMonthlyPayment;
       S2.outstandingPrincipal := outstandingPrincipal;
       S2.remainingTenure := remainingTenure;
       S2.newTenure := Some 0;
       S2.tenureReduced := Some (IZR remainingTenure);
       S2.interestSaved := Some 0;
       S2.totalExtraPaid := Some 0;
       S2.totalCostWithoutExtra := Decimal.times emi (Some (IZR remainingTenure));
       S2.totalCostWithExtra := Some 0 |}
  else
  let onePlusI := Decimal.plus (Some 1) i in
  let ratio := Decimal.div E_plus_extra denominatorInner in
  let lnRatio := Decimal.ln ratio in
  let lnOnePlusI := Decimal.ln onePlusI in
  let newTenureDecimal := Decimal.div lnRatio lnOnePlusI in
  let newTenure := Math.max0 (Math.ceil newTenureDecimal) in
  let tenureReduced := Decimal.minus (Some (IZR remainingTenure)) newTenure in
  let totalExtraPaid := Decimal.times (Some monthlyExtraPayment) newTenure in
  let totalCostWithoutExtra := Decimal.times emi (Some (IZR remainingTenure)) in
  let totalCostWithExtra := Decimal.times effectiveMonthlyPayment newTenure in
  let interestSaved := Decimal.minus totalCostWithoutExtra totalCostWithExtra in
  {| S2.emi := emi;
     S2.effectiveMonthlyPayment := effectiveMonthlyPayment;
     S2.outstandingPrincipal := outstandingPrincipal;
     S2.remainingTenure := remainingTenure;
     S2.newTenure := newTenure;
     S2.tenureReduced := tenureReduced;
     S2.interestSaved := interestSaved;
     S2.totalExtraPaid := totalExtraPaid;
     S2.totalCostWithoutExtra := totalCostWithoutExtra;
     S2.totalCostWithExtra := totalCostWithExtra |}.

(** ** Scenario 3: refinance comparison *)
Module S3.
Record option_result := {
  totalCost : num;
  totalInterest : num;
  monthlyPayment : num;
  tenure : num;
  hasBenefit : bool;
  status : option string }.

(** The labels ['stay' | 'A' | 'B' | 'C']. *)
Inductive best := stay | A | B | C.

Record result := {
  emi : num;
  outstandingPrincipal : num;
  remainingTenure : Z;
  optStay : option_result;
  optionA : option_result;
  optionB : option_result;
  optionC : option_result;
  bestOption : best;
  maxSavings : num }.

(** [costs[key]] on the candidate object; a missing key is [undefined],
    which compares [false] like NaN. *)
Fixpoint lookup (costs : list (best * num)) (k : best) : num :=
  match costs with
  | [] => None
  | (k', v) :: rest =>
      if match k, k' with
         | stay, stay | A, A | B, B | C, C => true
         | _, _ => false
         end
      then v else lookup rest k
  end.

(** [Array.prototype.reduce] without an initial value, on a non-empty
    array [first :: rest]. *)
Definition reduce {X : Type} (f : X -> X -> X) (first : X) (rest : list X) : X :=
  fold_left f rest first.
End S3.

(** The best-option rules of [calculateScenario3] (the block after
    "Find best option based on rules"). *)
Definition selectBestOption (prepaymentAmount currentRate newRate : R)
    (stayTotalCost optionA_totalCost : num) (optionA_hasBenefit : bool)
    (optionB_totalCost optionC_totalCost : num) : S3.best * num :=
  (* Rule 1 / Rule 2 *)
  if js_eq prepaymentAmount 0 then
    if (js_lt newRate currentRate && Decimal.lt optionB_totalCost stayTotalCost)%bool
    then (S3.B, Decimal.minus stayTotalCost optionB_totalCost)
    else (S3.stay, Some 0)
  (* Rule 3 *)
  else if (js_le currentRate newRate && js_lt 0 prepaymentAmount)%bool then
    if optionA_hasBenefit
    then (S3.A, Decimal.minus stayTotalCost optionA_totalCost)
    else (S3.stay, Some 0)
  (* Rule 4 *)
  else if (js_le currentRate newRate && js_eq prepaymentAmount 0)%bool then
    (S3.stay, Some 0)
  (* Rule 5 *)
  else
    let costs :=
      [(S3.stay, stayTotalCost); (S3.A, optionA_totalCost)]
      ++ (if js_lt newRate currentRate then [(S3.B, optionB_totalCost)] else [])
      ++ (if js_lt 0 prepaymentAmount then [(S3.C, optionC_totalCost)] else []) in
    let validOptions := map fst costs in
    let bestOption :=
      match validOptions with
      | first :: rest =>
          S3.reduce (fun a b =>
            if Decimal.lt (S3.lookup costs a) (S3.lookup costs b) then a else b)
            first rest
      | [] => S3.stay (* never: [costs] holds [stay] and [A] *)
      end in
    (bestOption, Decimal.minus stayTotalCost (S3.lookup costs bestOption)).

Definition calculateScenario3 (originalPrincipal currentRate : R)
    (originalTenure monthsPaid : Z) (prepaymentAmount newRate refinanceCost : R)
    (newTenure : Z) : S3.result :=
  let emi := calculateEMI originalPrincipal currentRate originalTenure in
  let outstandingPrincipal :=
    calculateOutstandingPrincipal originalPrincipal currentRate originalTenure monthsPaid in
  let remainingTenure := (originalTenure - monthsPaid)%Z in
  let alreadyPaid := Decimal.times emi (Some (IZR monthsPaid)) in
  let i_current := calculateMonthlyRate currentRate in
  let i_new := calculateMonthlyRate newRate in
  (* Stay *)
  let stayMonthlyPayment := emi in
  let stayTenure := remainingTenure in
  let stayFuturePayments := Decimal.times emi (Some (IZR stayTenure)) in
  let stayTotalCost := Decimal.plus alreadyPaid stayFuturePayments in
  let stayTotalInterest := Decimal.minus stayTotalCost (Some originalPrincipal) in
  (* Option A: prepay only *)
  let optionA :=
    if (js_lt 0 prepaymentAmount
        && Decimal.lt (Some prepaymentAmount) outstandingPrincipal)%bool then
      let P_after := Decimal.minus outstandingPrincipal (Some prepaymentAmount) in
      let P_afterTimesI := Decimal.times P_after i_current in
      let denominatorInner := Decimal.minus emi P_afterTimesI in
      if Decimal.gt denominatorInner (Some 0) then
        let onePlusI := Decimal.plus (Some 1) i_current in
        let ratio := Decimal.div emi denominatorInner in
        let lnRatio := Decimal.ln ratio in
        let lnOnePlusI := Decimal.ln onePlusI in
        let newTenureDecimal := Decimal.div lnRatio lnOnePlusI in
        let optionA_tenure := Math.max0 (Math.ceil newTenureDecimal) in
        let optionA_futurePayments := Decimal.times emi optionA_tenure in
        let optionA_totalCost :=
          Decimal.plus (Decimal.plus alreadyPaid optionA_futurePayments)
            (Some prepaymentAmount) in
        {| S3.totalCost := optionA_totalCost;
           S3.totalInterest := Decimal.minus optionA_totalCost (Some originalPrincipal);
           S3.monthlyPayment := emi;
           S3.tenure := optionA_tenure;
           S3.hasBenefit := Decimal.lt optionA_totalCost stayTotalCost;
           S3.status := None |}
      else
        let optionA_totalCost := Decimal.plus alreadyPaid (Some prepaymentAmount) in
        {| S3.totalCost := optionA_totalCost;
           S3.totalInterest := Decimal.minus optionA_totalCost (Some originalPrincipal);
           S3.monthlyPayment := emi;
           S3.tenure := Some 0;
           S3.hasBenefit := false;
           S3.status := Some "Invalid scenario"%string |}
    else
      {| S3.totalCost := stayTotalCost;
         S3.totalInterest := stayTotalInterest;
         S3.monthlyPayment := emi;
         S3.tenure := Some (IZR remainingTenure);
         S3.hasBenefit := false;
         S3.status :=
           if js_eq prepaymentAmount 0 then Some "No benefit (same as Stay)"%string
           else Some "Invalid prepayment amount"%string |} in
  (* Option B: refinance only *)
  let refinanceCostDecimal := Some refinanceCost in
  let P_refi_B := Decimal.plus outstandingPrincipal refinanceCostDecimal in
  let onePlusI_new := Decimal.plus (Some 1) i_new in
  let onePlusI_newToN := Decimal.pow onePlusI_new newTenure in
  let optionB_emi :=
    Decimal.div (Decimal.times (Decimal.times P_refi_B i_new) onePlusI_newToN)
      (Decimal.minus onePlusI_newToN (Some 1)) in
  let optionB_futurePayments := Decimal.times optionB_emi (Some (IZR newTenure)) in
  let optionB_totalCost := Decimal.plus alreadyPaid optionB_futurePayments in
  let optionB :=
    {| S3.totalCost := optionB_totalCost;
       S3.totalInterest := Decimal.minus optionB_totalCost (Some originalPrincipal);
       S3.monthlyPayment := optionB_emi;
       S3.tenure := Some (IZR newTenure);
       S3.hasBenefit :=
         (js_lt newRate currentRate && Decimal.lt optionB_totalCost stayTotalCost)%bool;
       S3.status :=
         if js_le currentRate newRate then Some "No benefit (rate not lower)"%string
         else None |} in
  (* Option C: prepay + refinance *)
  let P_after_C := Decimal.minus outstandingPrincipal (Some prepaymentAmount) in
  let P_refi_C := Decimal.plus P_after_C refinanceCostDecimal in
  let optionC :=
    if js_eq prepaymentAmount 0 then
      {| S3.totalCost := optionB_totalCost;
         S3.totalInterest := S3.totalInterest optionB;
         S3.monthlyPayment := optionB_emi;
         S3.tenure := Some (IZR newTenure);
         S3.hasBenefit := false;
         S3.status := Some "Same as Option B (no prepayment)"%string |}
    else if (Decimal.gt P_refi_C (Some 0)
             && Decimal.lt (Some prepaymentAmount) outstandingPrincipal)%bool then
      let onePlusI_new_C := Decimal.plus (Some 1) i_new in
      let onePlusI_newToN_C := Decimal.pow onePlusI_new_C newTenure in
      let optionC_emi :=
        Decimal.div (Decimal.times (Decimal.times P_refi_C i_new) onePlusI_newToN_C)
          (Decimal.minus onePlusI_newToN_C (Some 1)) in
      let optionC_futurePayments := Decimal.times optionC_emi (Some (IZR newTenure)) in
      let optionC_totalCost :=
        Decimal.plus (Decimal.plus alreadyPaid optionC_futurePayments)
          (Some prepaymentAmount) in
      {| S3.totalCost := optionC_totalCost;
         S3.totalInterest := Decimal.minus optionC_totalCost (Some originalPrincipal);
         S3.monthlyPayment := optionC_emi;
         S3.tenure := Some (IZR newTenure);
         S3.hasBenefit :=
           if js_le currentRate newRate then false
           else Decimal.lt optionC_totalCost (S3.totalCost optionA);
         S3.status :=
           if js_le currentRate newRate then Some "No benefit (rate not lower)"%string
           else None |}
    else
      {| S3.totalCost := stayTotalCost;
         S3.totalInterest := stayTotalInterest;
         S3.monthlyPayment := emi;
         S3.tenure := Some (IZR remainingTenure);
         S3.hasBenefit := false;
         S3.status := Some "Invalid scenario"%string |} in
  let '(bestOption, maxSavings) :=
    selectBestOption prepaymentAmount currentRate newRate stayTotalCost
      (S3.totalCost optionA) (S3.hasBenefit optionA) optionB_totalCost
      (S3.totalCost optionC) in
  {| S3.emi := emi;
     S3.outstandingPrincipal := outstandingPrincipal;
     S3.remainingTenure := remainingTenure;
     S3.optStay :=
       {| S3.totalCost := stayTotalCost;
          S3.totalInterest := stayTotalInterest;
          S3.monthlyPayment := stayMonthlyPayment;
          S3.tenure := Some (IZR stayTenure);
          S3.hasBenefit := true;
          S3.status := None |};
     S3.optionA := optionA;
     S3.optionB := optionB;
     S3.optionC := optionC;
     S3.bestOption := bestOption;
     S3.maxSavings := maxSavings |}.

(** The option a label names, and the order of the candidate keys
    [stay, A, B, C] in the cost table. *)
Definition optionOf (res : S3.result) (o : S3.best) : S3.option_result :=
  match o with
  | S3.stay => S3.optStay res
  | S3.A => S3.optionA res
  | S3.B => S3.optionB res
  | S3.C => S3.optionC res
  end.

Definition keyRank (o : S3.best) : nat :=
  match o with
  | S3.stay => 0
  | S3.A => 1
  | S3.B => 2
  | S3.C => 3
  end.

(** * Properties *)

(** ** Evaluation of decimal.js operations on finite values *)

Lemma plus_Some x y : Decimal.plus (Some x) (Some y) = Some (x + y).
Proof. reflexivity. Qed.

Lemma minus_Some x y : Decimal.minus (Some x) (Some y) = Some (x - y).
Proof. reflexivity. Qed.

Lemma times_Some x y : Decimal.times (Some x) (Some y) = Some (x * y).
Proof. reflexivity. Qed.

Ltac dsimpl := repeat rewrite ?plus_Some, ?minus_Some, ?times_Some.

Lemma div_Some x y : y <> 0 -> Decimal.div (Some x) (Some y) = Some (x / y).
Proof. intros Hy; unfold Decimal.div; destruct (Req_EM_T y 0); congruence. Qed.

Lemma pow_Some x n : (0 <= n)%Z -> Decimal.pow (Some x) n = Some (x ^ Z.to_nat n).
Proof.
  intros Hn; unfold Decimal.pow.
  replace (n <? 0)%Z with false by (symmetry; apply Z.ltb_ge; lia).
  destruct n as [|p|p]; simpl; [reflexivity | reflexivity | lia].
Qed.

Lemma lte_true x y : x <= y -> Decimal.lte (Some x) (Some y) = true.
Proof. intros H; unfold Decimal.lte; destruct (Rle_dec x y); [reflexivity | lra]. Qed.

Lemma lte_false x y : y < x -> Decimal.lte (Some x) (Some y) = false.
Proof. intros H; unfold Decimal.lte; destruct (Rle_dec x y); [lra | reflexivity]. Qed.

Lemma lt_true x y : x < y -> Decimal.lt (Some x) (Some y) = true.
Proof. intros H; unfold Decimal.lt; destruct (Rlt_dec x y); [reflexivity | lra]. Qed.

Lemma lt_false x y : y <= x -> Decimal.lt (Some x) (Some y) = false.
Proof. intros H; unfold Decimal.lt; destruct (Rlt_dec x y); [lra | reflexivity]. Qed.

Lemma js_lt_true x y : x < y -> js_lt x y = true.
Proof. intros H; unfold js_lt; destruct (Rlt_dec x y); [reflexivity | lra]. Qed.

Lemma js_lt_false x y : y <= x -> js_lt x y = false.
Proof. intros H; unfold js_lt; destruct (Rlt_dec x y); [lra | reflexivity]. Qed.

Lemma js_le_true x y : x <= y -> js_le x y = true.
Proof. intros H; unfold js_le; destruct (Rle_dec x y); [reflexivity | lra]. Qed.

Lemma js_le_false x y : y < x -> js_le x y = false.
Proof. intros H; unfold js_le; destruct (Rle_dec x y); [lra | reflexivity]. Qed.

Lemma js_eq_true x : js_eq x x = true.
Proof. unfold js_eq; destruct (Req_EM_T x x); [reflexivity | congruence]. Qed.

Lemma js_eq_false x y : x <> y -> js_eq x y = false.
Proof. intros H; unfold js_eq; destruct (Req_EM_T x y); [congruence | reflexivity]. Qed.

Lemma monthlyRate_eq r : calculateMonthlyRate r = Some (r / 100 / 12).
Proof.
  unfold calculateMonthlyRate; rewrite div_Some by lra; rewrite div_Some by lra.
  reflexivity.
Qed.

(** ** Growth factor [(1+i)^n] *)

Lemma rate_pos r : 0 < r -> 0 < r / 100 / 12.
Proof. intros; unfold Rdiv; repeat apply Rmult_lt_0_compat; lra. Qed.

Lemma growth_gt_1 i n : 0 < i -> (0 < n)%nat -> 1 < (1 + i) ^ n.
Proof.
  intros Hi Hn; pose proof (Rlt_pow (1 + i) 0 n ltac:(lra) Hn) as H.
  rewrite pow_O in H; exact H.
Qed.

Lemma calculateEMI_eq P r N :
  0 < r -> (1 <= N)%Z ->
  calculateEMI P r N =
  Some (P * (r / 100 / 12) * (1 + r / 100 / 12) ^ Z.to_nat N
        / ((1 + r / 100 / 12) ^ Z.to_nat N - 1)).
Proof.
  intros Hr HN; unfold calculateEMI; cbv zeta.
  rewrite monthlyRate_eq, plus_Some, pow_Some by lia.
  dsimpl; apply div_Some.
  assert (1 < (1 + r / 100 / 12) ^ Z.to_nat N)
    by (apply growth_gt_1; [apply rate_pos; lra | lia]); lra.
Qed.

(** ** The outstanding balance in closed form *)

Lemma calculateOutstanding_eq P r N k :
  0 < r -> (1 <= N)%Z -> (0 <= k)%Z ->
  calculateOutstandingPrincipal P r N k =
  Some (P * ((1 + r / 100 / 12) ^ Z.to_nat N - (1 + r / 100 / 12) ^ Z.to_nat k)
        / ((1 + r / 100 / 12) ^ Z.to_nat N - 1)).
Proof.
  intros Hr HN Hk; unfold calculateOutstandingPrincipal; cbv zeta.
  pose proof (rate_pos r Hr) as Hi.
  rewrite monthlyRate_eq, plus_Some, pow_Some, pow_Some by lia; dsimpl.
  assert (1 < (1 + r / 100 / 12) ^ Z.to_nat N) by (apply growth_gt_1; [lra | lia]).
  apply div_Some; lra.
Qed.

(** ** Claim C8: Scenario 1B degenerate shape *)

(** C8: when the balance after prepayment [b - p] is not positive, or it
    is positive but the EMI-formula denominator [(1+i)^remaining - 1] is
    not positive, Scenario 1B returns [newEmi = 0], [interestSaved = 0]
    and [totalCostWithPrepay = prepaymentAmount]. *)
Theorem scenario1B_degenerate P r N k p b :
  calculateOutstandingPrincipal P r N k = Some b ->
  (b - p <= 0 \/
   (0 < b - p /\ exists g, Decimal.pow (Some (1 + r / 100 / 12)) (N - k) = Some g /\
                           g - 1 <= 0)) ->
  let res := calculatePrepaymentScenario1B P r N k p in
  S1B.newEmi res = Some 0 /\ S1B.interestSaved res = Some 0 /\
  S1B.totalCostWithPrepay res = Some p.
Proof.
  intros Hb Hcase res; unfold res, calculatePrepaymentScenario1B; cbv zeta.
  rewrite Hb, minus_Some.
  destruct Hcase as [Hle | [Hpos [g [Hg Hg1]]]].
  - rewrite lte_true by lra; repeat split.
  - rewrite lte_false by lra.
    rewrite monthlyRate_eq, plus_Some, Hg; dsimpl.
    rewrite lte_true by lra; repeat split.
Qed.

Lemma outstanding_one_month : calculateOutstandingPrincipal 100 12 1 0 = Some 100.
Proof.
  rewrite calculateOutstanding_eq by (lra || lia); f_equal.
  change (Z.to_nat 1) with 1%nat; change (Z.to_nat 0) with 0%nat.
  rewrite pow_1, pow_O; field.
Qed.

(** A one-month loan of 100 at 12% fully prepaid. *)
Lemma scenario1B_degenerate_witness :
  (calculateOutstandingPrincipal 100 12 1 0 = Some 100 /\ 100 - 100 <= 0) /\
  let res := calculatePrepaymentScenario1B 100 12 1 0 100 in
  S1B.newEmi res = Some 0 /\ S1B.interestSaved res = Some 0 /\
  S1B.totalCostWithPrepay res = Some 100.
Proof.
  split; [split; [exact outstanding_one_month | lra] |].
  apply (scenario1B_degenerate 100 12 1 0 100 100 outstanding_one_month).
  left; lra.
Defined.

(** ** Claim C9: Scenario 2 insufficient-payment sentinel *)

(** C9: with a positive extra payment [x], when the effective payment
    [e + x] does not exceed one month's interest [b * i] on the
    outstanding balance [b], Scenario 2 returns [newTenure = 0],
    [tenureReduced = remainingTenure], [totalCostWithExtra = 0],
    [interestSaved = 0] and [totalExtraPaid = 0]. *)
Theorem scenario2_insufficient_payment P r N k x e b :
  0 < x ->
  calculateEMI P r N = Some e ->
  calculateOutstandingPrincipal P r N k = Some b ->
  e + x - b * (r / 100 / 12) <= 0 ->
  let res := calculateScenario2 P r N k x in
  S2.newTenure res = Some 0 /\
  S2.tenureReduced res = Some (IZR (S2.remainingTenure res)) /\
  S2.totalCostWithExtra res = Some 0 /\
  S2.interestSaved res = Some 0 /\
  S2.totalExtraPaid res = Some 0.
Proof.
  intros Hx He Hb Hd res; unfold res, calculateScenario2; cbv zeta.
  rewrite js_le_false by lra.
  rewrite He, Hb, monthlyRate_eq; dsimpl.
  rewrite lte_true by lra; repeat split.
Qed.

Lemma emi_negative_principal : calculateEMI (-100) 12 1 = Some (-101).
Proof.
  rewrite calculateEMI_eq by (lra || lia); f_equal.
  change (Z.to_nat 1) with 1%nat; rewrite pow_1; field.
Qed.

Lemma outstanding_negative_principal : calculateOutstandingPrincipal (-100) 12 1 0 = Some (-100).
Proof.
  rewrite calculateOutstanding_eq by (lra || lia); f_equal.
  change (Z.to_nat 1) with 1%nat; change (Z.to_nat 0) with 0%nat.
  rewrite pow_1, pow_O; field.
Qed.

(** A principal of -100 at 12% over one month with 1 extra per month:
    effective payment -100 against an interest of -1. *)
Lemma scenario2_insufficient_payment_witness :
  (0 < 1 /\ calculateEMI (-100) 12 1 = Some (-101) /\
   calculateOutstandingPrincipal (-100) 12 1 0 = Some (-100) /\
   -101 + 1 - -100 * (12 / 100 / 12) <= 0) /\
  let res := calculateScenario2 (-100) 12 1 0 1 in
  S2.newTenure res = Some 0 /\
  S2.tenureReduced res = Some (IZR (S2.remainingTenure res)) /\
  S2.totalCostWithExtra res = Some 0 /\
  S2.interestSaved res = Some 0 /\
  S2.totalExtraPaid res = Some 0.
Proof.
  split.
  - split; [lra | split; [exact emi_negative_principal |
      split; [exact outstanding_negative_principal | lra]]].
  - apply (scenario2_insufficient_payment (-100) 12 1 0 1 (-101) (-100));
      [lra | exact emi_negative_principal | exact outstanding_negative_principal | lra].
Defined.

(** ** Scenario 3 *)

Lemma js_lt_negb_le x y : js_lt x y = negb (js_le y x).
Proof.
  unfold js_lt, js_le; destruct (Rlt_dec x y), (Rle_dec y x); simpl; auto; lra.
Qed.

Ltac split_selection :=
  match goal with
  | |- context [match ?e with pair _ _ => _ end] => destruct e
  end.

(** The reported label and savings are those of [selectBestOption] on the
    reported option costs. *)
Lemma scenario3_selection P r N k p nr rc nt :
  let res := calculateScenario3 P r N k p nr rc nt in
  (S3.bestOption res, S3.maxSavings res) =
  selectBestOption p r nr (S3.totalCost (S3.optStay res))
    (S3.totalCost (S3.optionA res)) (S3.hasBenefit (S3.optionA res))
    (S3.totalCost (S3.optionB res)) (S3.totalCost (S3.optionC res)).
Proof.
  intros res; unfold res, calculateScenario3; cbv zeta.
  match goal with
  | |- context [match ?e with pair _ _ => _ end] =>
      let Hsel := fresh "Hsel" in destruct e eqn:Hsel; symmetry; exact Hsel
  end.
Qed.

(** ** Claim C2: rule ordering of the best-option arbitration *)

(** C2: with no prepayment, a lower new rate and Option B cheaper than
    Stay, the best option is B; with no prepayment and a new rate that is
    not lower, it is Stay; with a positive prepayment and a new rate that
    is not lower, it is A or Stay, never B or C. *)
Theorem scenario3_rule_ordering P r N k p nr rc nt :
  let res := calculateScenario3 P r N k p nr rc nt in
  (p = 0 -> nr < r ->
   Decimal.lt (S3.totalCost (S3.optionB res)) (S3.totalCost (S3.optStay res)) = true ->
   S3.bestOption res = S3.B) /\
  (p = 0 -> r <= nr -> S3.bestOption res = S3.stay) /\
  (0 < p -> r <= nr -> S3.bestOption res = S3.A \/ S3.bestOption res = S3.stay).
Proof.
  intros res.
  pose proof (scenario3_selection P r N k p nr rc nt) as Hsel; cbv zeta in Hsel; fold res in Hsel.
  assert (Hb : S3.bestOption res = fst (selectBestOption p r nr (S3.totalCost (S3.optStay res))
    (S3.totalCost (S3.optionA res)) (S3.hasBenefit (S3.optionA res))
    (S3.totalCost (S3.optionB res)) (S3.totalCost (S3.optionC res))))
    by (rewrite <- Hsel; reflexivity).
  rewrite Hb; clear Hsel Hb; unfold selectBestOption.
  split; [|split].
  - intros -> Hlt HB; rewrite js_eq_true, js_lt_true by lra; rewrite HB; reflexivity.
  - intros -> Hle; rewrite js_eq_true, js_lt_false by lra; reflexivity.
  - intros Hp Hle; rewrite js_eq_false by lra.
    rewrite js_le_true, js_lt_true by lra; simpl.
    destruct (S3.hasBenefit (S3.optionA res)); [left | right]; reflexivity.
Qed.

(** ** Claim C10: Option C's benefit flag *)

(** C10: Option C's [hasBenefit] is true exactly when the prepayment is
    non-zero, the prepay-and-refinance branch is taken (capitalised
    balance positive, prepayment below the outstanding balance), the new
    rate is lower, and Option C costs less than Option A; Stay's cost
    plays no part.  With no prepayment Option C copies Option B's numbers
    but its flag is false. *)
Theorem optionC_hasBenefit_rule P r N k p nr rc nt :
  let res := calculateScenario3 P r N k p nr rc nt in
  S3.hasBenefit (S3.optionC res) =
    (negb (js_eq p 0)
     && (Decimal.gt (Decimal.plus (Decimal.minus (S3.outstandingPrincipal res) (Some p))
                       (Some rc)) (Some 0)
         && Decimal.lt (Some p) (S3.outstandingPrincipal res))
     && js_lt nr r
     && Decimal.lt (S3.totalCost (S3.optionC res)) (S3.totalCost (S3.optionA res)))%bool /\
  (p = 0 ->
   S3.hasBenefit (S3.optionC res) = false /\
   S3.totalCost (S3.optionC res) = S3.totalCost (S3.optionB res) /\
   S3.totalInterest (S3.optionC res) = S3.totalInterest (S3.optionB res) /\
   S3.monthlyPayment (S3.optionC res) = S3.monthlyPayment (S3.optionB res) /\
   S3.tenure (S3.optionC res) = S3.tenure (S3.optionB res)).
Proof.
  intros res; unfold res, calculateScenario3; cbv zeta; split_selection.
  cbn [S3.optionC S3.optionA S3.optionB S3.outstandingPrincipal S3.hasBenefit
       S3.totalCost S3.totalInterest S3.monthlyPayment S3.tenure].
  rewrite (js_lt_negb_le nr r).
  split.
  - destruct (js_eq p 0); [reflexivity|]; cbn [negb andb].
    match goal with
    | |- context [if ?c then _ else _] =>
        match c with
        | (Decimal.gt _ _ && _)%bool => destruct c
        end
    end; cbn [S3.hasBenefit S3.totalCost andb]; [|reflexivity].
    destruct (js_le r nr); reflexivity.
  - intros ->; rewrite js_eq_true; repeat split.
Qed.

(** ** Evaluation at concrete inputs *)

Lemma pow_Z1 x : x ^ Z.to_nat 1 = x.
Proof. simpl; ring. Qed.

Lemma calculateEMI_one_month P r :
  0 < r -> calculateEMI P r 1 = Some (P * (1 + r / 100 / 12)).
Proof.
  intros Hr; pose proof (rate_pos r Hr).
  rewrite calculateEMI_eq by (lra || lia); rewrite pow_Z1; f_equal; field; lra.
Qed.

Lemma calculateOutstanding_one_month P r :
  0 < r -> calculateOutstandingPrincipal P r 1 0 = Some P.
Proof.
  intros Hr; pose proof (rate_pos r Hr).
  rewrite calculateOutstanding_eq by (lra || lia); rewrite pow_Z1.
  change (Z.to_nat 0) with 0%nat; rewrite pow_O; f_equal; field; lra.
Qed.

Ltac num_step :=
  first
  [ rewrite monthlyRate_eq
  | rewrite plus_Some | rewrite minus_Some | rewrite times_Some
  | rewrite pow_Z1 | rewrite minus_IZR
  | match goal with
    | |- context [Decimal.pow (Some ?x) ?n] => rewrite (pow_Some x n) by lia
    | |- context [Decimal.div (Some ?x) (Some ?y)] => rewrite (div_Some x y) by lra
    | |- context [Decimal.lt (Some ?x) (Some ?y)] =>
        first [rewrite (lt_true x y) by lra | rewrite (lt_false x y) by lra]
    | |- context [Decimal.lte (Some ?x) (Some ?y)] =>
        first [rewrite (lte_true x y) by lra | rewrite (lte_false x y) by lra]
    | |- context [js_lt ?x ?y] =>
        first [rewrite (js_lt_true x y) by lra | rewrite (js_lt_false x y) by lra]
    | |- context [js_le ?x ?y] =>
        first [rewrite (js_le_true x y) by lra | rewrite (js_le_false x y) by lra]
    | |- context [js_eq ?x ?x] => rewrite (js_eq_true x)
    | |- context [js_eq ?x ?y] => rewrite (js_eq_false x y) by lra
    end ].

Ltac num_eval := unfold Decimal.gt; repeat (num_step; cbn [andb negb]).

(** A one-month loan of 100 at 12% (EMI 101), fully prepaid with 100,
    against a refinance at 6% over one month with a cost of 100:
    Stay, A and C all cost 101, B costs 201, and the code picks C. *)
Lemma scenario3_tie_example :
  let res := calculateScenario3 100 12 1 0 100 6 100 1 in
  S3.totalCost (S3.optStay res) = Some 101 /\
  S3.totalCost (S3.optionA res) = Some 101 /\
  S3.totalCost (S3.optionB res) = Some 201 /\
  S3.totalCost (S3.optionC res) = Some 101 /\
  S3.bestOption res = S3.C /\
  S3.maxSavings res = Some 0.
Proof.
  intros res.
  pose proof (scenario3_selection 100 12 1 0 100 6 100 1) as Hsel; cbv zeta in Hsel.
  fold res in Hsel.
  assert (Hs : S3.totalCost (S3.optStay res) = Some 101).
  { unfold res, calculateScenario3; cbv zeta; split_selection; cbn [S3.optStay S3.totalCost].
    rewrite calculateEMI_one_month by lra; num_eval; f_equal; lra. }
  assert (Ha : S3.totalCost (S3.optionA res) = Some 101).
  { unfold res, calculateScenario3; cbv zeta; split_selection; cbn [S3.optionA].
    rewrite calculateEMI_one_month, calculateOutstanding_one_month by lra.
    num_eval; cbn [S3.totalCost]; num_eval; f_equal; lra. }
  assert (Hb : S3.totalCost (S3.optionB res) = Some 201).
  { unfold res, calculateScenario3; cbv zeta; split_selection; cbn [S3.optionB S3.totalCost].
    rewrite calculateEMI_one_month, calculateOutstanding_one_month by lra.
    num_eval; f_equal; field. }
  assert (Hc : S3.totalCost (S3.optionC res) = Some 101).
  { unfold res, calculateScenario3; cbv zeta; split_selection; cbn [S3.optionC].
    rewrite calculateEMI_one_month, calculateOutstanding_one_month by lra.
    num_eval; cbn [S3.totalCost]; num_eval; f_equal; lra. }
  assert (Hsel' : (S3.bestOption res, S3.maxSavings res) = (S3.C, Some 0)).
  { rewrite Hsel, Hs, Ha, Hb, Hc; unfold selectBestOption.
    num_eval; cbn [S3.reduce S3.lookup fold_left map fst app]; num_eval.
    cbn [S3.lookup]; num_eval; f_equal; f_equal; lra. }
  injection Hsel' as Hbest Hmax.
  repeat split; assumption.
Qed.

(** ** Claim C1: the lowest-cost rule with a prepayment and a lower rate *)

(** C1 (as stated, refuted): Stay attains the lowest cost and comes first
    in the order stay, A, B, C, yet the code does not pick it. *)
Lemma scenario3_first_tie_not_chosen :
  let res := calculateScenario3 100 12 1 0 100 6 100 1 in
  0 < 100 /\ 6 < 12 /\
  S3.totalCost (S3.optStay res) = Some 101 /\
  (forall o, exists c, S3.totalCost (optionOf res o) = Some c /\ 101 <= c) /\
  S3.bestOption res = S3.C /\ S3.bestOption res <> S3.stay.
Proof.
  intros res.
  destruct scenario3_tie_example as [Hs [Ha [Hb [Hc [Hbest _]]]]];
  fold res in Hs, Ha, Hb, Hc, Hbest.
  split; [lra | split; [lra | split; [exact Hs | split]]].
  - intros o; destruct o; cbn [optionOf].
    + exists 101; split; [exact Hs | lra].
    + exists 101; split; [exact Ha | lra].
    + exists 201; split; [exact Hb | lra].
    + exists 101; split; [exact Hc | lra].
  - rewrite Hbest; split; [reflexivity | discriminate].
Qed.

(** C1 (amended): with a positive prepayment and a lower new rate, when
    the four option costs are finite, the best option has the lowest cost
    of the four, every option after it in the order stay, A, B, C costs
    strictly more (ties go to the last option reaching the minimum), and
    [maxSavings] is Stay's cost minus the chosen option's cost. *)
Theorem scenario3_lowest_cost_last_tie P r N k p nr rc nt cs ca cb cc :
  0 < p -> nr < r ->
  let res := calculateScenario3 P r N k p nr rc nt in
  S3.totalCost (S3.optStay res) = Some cs ->
  S3.totalCost (S3.optionA res) = Some ca ->
  S3.totalCost (S3.optionB res) = Some cb ->
  S3.totalCost (S3.optionC res) = Some cc ->
  exists cbest,
    S3.totalCost (optionOf res (S3.bestOption res)) = Some cbest /\
    (forall o c, S3.totalCost (optionOf res o) = Some c ->
       cbest <= c /\ ((keyRank (S3.bestOption res) < keyRank o)%nat -> cbest < c)) /\
    S3.maxSavings res = Some (cs - cbest).
Proof.
  intros Hp Hnr res Hs Ha Hb Hc.
  pose proof (scenario3_selection P r N k p nr rc nt) as Hsel; cbv zeta in Hsel.
  fold res in Hsel; rewrite Hs, Ha, Hb, Hc in Hsel; unfold selectBestOption in Hsel.
  rewrite (js_eq_false p 0), (js_le_false r nr), (js_lt_true nr r), (js_lt_true 0 p)
    in Hsel by lra.
  cbn [andb app map fst S3.reduce fold_left] in Hsel.
  repeat (cbn [S3.lookup Decimal.lt] in Hsel;
          match type of Hsel with
          | context [Rlt_dec ?x ?y] => destruct (Rlt_dec x y)
          end).
  all: cbn [S3.lookup] in Hsel; rewrite minus_Some in Hsel.
  all: injection Hsel as Hbest Hmax; rewrite Hbest.
  all: eexists; split; [cbn [optionOf]; eassumption | split; [| exact Hmax]].
  all: intros o c Ho; destruct o; cbn [optionOf keyRank] in *.
  all: try (rewrite Ho in Hs); try (rewrite Ho in Ha); try (rewrite Ho in Hb);
       try (rewrite Ho in Hc).
  all: repeat match goal with H : Some _ = Some _ |- _ => injection H as H end.
  all: subst; split; intros; try lra; lia.
Qed.

Lemma scenario3_lowest_cost_last_tie_witness :
  let res := calculateScenario3 100 12 1 0 100 6 100 1 in
  (0 < 100 /\ 6 < 12 /\
   S3.totalCost (S3.optStay res) = Some 101 /\ S3.totalCost (S3.optionA res) = Some 101 /\
   S3.totalCost (S3.optionB res) = Some 201 /\ S3.totalCost (S3.optionC res) = Some 101) /\
  exists cbest,
    S3.totalCost (optionOf res (S3.bestOption res)) = Some cbest /\
    (forall o c, S3.totalCost (optionOf res o) = Some c ->
       cbest <= c /\ ((keyRank (S3.bestOption res) < keyRank o)%nat -> cbest < c)) /\
    S3.maxSavings res = Some (101 - cbest).
Proof.
  intros res.
  destruct scenario3_tie_example as [Hs [Ha [Hb [Hc _]]]];
  fold res in Hs, Ha, Hb, Hc.
  split; [repeat split; assumption || lra |].
  exact (scenario3_lowest_cost_last_tie 100 12 1 0 100 6 100 1 101 101 201 101
           ltac:(lra) ltac:(lra) Hs Ha Hb Hc).
Defined.

(** * Further properties of the engine *)

(** ** Scenario 3 *)

Lemma optionA_hasBenefit_cheaper P r N k p nr rc nt :
  let res := calculateScenario3 P r N k p nr rc nt in
  S3.hasBenefit (S3.optionA res) = true ->
  Decimal.lt (S3.totalCost (S3.optionA res)) (S3.totalCost (S3.optStay res)) = true.
Proof.
  intros res; unfold res, calculateScenario3; cbv zeta; split_selection.
  cbn [S3.optionA S3.optStay S3.totalCost].
  repeat match goal with
         | |- context [if ?c then _ else _] =>
             match c with
             | (js_lt 0 p && _)%bool => destruct c
             | Decimal.gt _ _ => destruct c
             end
         end; cbn [S3.hasBenefit S3.totalCost]; intros H; [exact H | discriminate | discriminate].
Qed.

Lemma selectBest_savings_nonneg p r nr cs ca hA cb cc :
  (hA = true -> ca < cs) ->
  exists m, snd (selectBestOption p r nr (Some cs) (Some ca) hA (Some cb) (Some cc))
            = Some m /\ 0 <= m.
Proof.
  intros HA; unfold selectBestOption.
  destruct (js_eq p 0), (js_lt nr r), (js_le r nr), (js_lt 0 p), hA;
    cbn [andb app map fst S3.reduce fold_left snd];
    repeat (cbn [S3.lookup Decimal.lt];
            match goal with
            | |- context [Rlt_dec ?x ?y] => destruct (Rlt_dec x y)
            end);
    cbn [S3.lookup snd]; rewrite ?minus_Some;
    try (specialize (HA eq_refl));
    eexists; (split; [reflexivity | lra]).
Qed.

(** ** X14: the reported savings are never negative *)

(** When the four option costs are finite, [maxSavings] is finite and
    non-negative. *)
Theorem maxSavings_nonneg P r N k p nr rc nt cs ca cb cc :
  let res := calculateScenario3 P r N k p nr rc nt in
  S3.totalCost (S3.optStay res) = Some cs ->
  S3.totalCost (S3.optionA res) = Some ca ->
  S3.totalCost (S3.optionB res) = Some cb ->
  S3.totalCost (S3.optionC res) = Some cc ->
  exists m, S3.maxSavings res = Some m /\ 0 <= m.
Proof.
  intros res Hs Ha Hb Hc.
  pose proof (scenario3_selection P r N k p nr rc nt) as Hsel; cbv zeta in Hsel.
  fold res in Hsel; rewrite Hs, Ha, Hb, Hc in Hsel.
  pose proof (optionA_hasBenefit_cheaper P r N k p nr rc nt) as HA; cbv zeta in HA.
  fold res in HA; rewrite Hs, Ha in HA.
  destruct (selectBest_savings_nonneg p r nr cs ca (S3.hasBenefit (S3.optionA res)) cb cc)
    as [m [Hm Hm0]].
  { intros H; specialize (HA H); unfold Decimal.lt in HA.
    destruct (Rlt_dec ca cs); [assumption | discriminate]. }
  exists m; split; [| exact Hm0].
  rewrite <- Hm, <- Hsel; reflexivity.
Qed.

Lemma maxSavings_nonneg_witness :
  let res := calculateScenario3 100 12 1 0 100 6 100 1 in
  (S3.totalCost (S3.optStay res) = Some 101 /\ S3.totalCost (S3.optionA res) = Some 101 /\
   S3.totalCost (S3.optionB res) = Some 201 /\ S3.totalCost (S3.optionC res) = Some 101) /\
  exists m, S3.maxSavings res = Some m /\ 0 <= m.
Proof.
  intros res.
  destruct scenario3_tie_example as [Hs [Ha [Hb [Hc _]]]]; fold res in Hs, Ha, Hb, Hc.
  split; [repeat split; assumption |].
  exact (maxSavings_nonneg 100 12 1 0 100 6 100 1 101 101 201 101 Hs Ha Hb Hc).
Defined.

(** ** X15: a full prepayment can recommend an invalid option *)

(** With a prepayment [p > 0] that covers the whole outstanding balance
    [b], a lower new rate, and Option B not cheaper than Stay, the
    comparison recommends Option C, whose status is ["Invalid scenario"],
    with savings 0. *)
Theorem full_prepayment_picks_invalid_optionC P r N k p nr rc nt b cs cb :
  0 < p -> nr < r -> calculateOutstandingPrincipal P r N k = Some b -> b <= p ->
  let res := calculateScenario3 P r N k p nr rc nt in
  S3.totalCost (S3.optStay res) = Some cs ->
  S3.totalCost (S3.optionB res) = Some cb -> cs <= cb ->
  S3.bestOption res = S3.C /\
  S3.status (S3.optionC res) = Some "Invalid scenario"%string /\
  S3.maxSavings res = Some 0.
Proof.
  intros Hp Hnr Hb Hbp res Hs HB Hcb.
  assert (Ha : S3.totalCost (S3.optionA res) = S3.totalCost (S3.optStay res)).
  { unfold res, calculateScenario3; cbv zeta; split_selection.
    cbn [S3.optionA S3.optStay]; rewrite Hb.
    rewrite (js_lt_true 0 p), (lt_false p b) by lra; reflexivity. }
  assert (Hc : S3.totalCost (S3.optionC res) = S3.totalCost (S3.optStay res) /\
               S3.status (S3.optionC res) = Some "Invalid scenario"%string).
  { unfold res, calculateScenario3; cbv zeta; split_selection.
    cbn [S3.optionC S3.optStay]; rewrite Hb.
    rewrite (js_eq_false p 0), (lt_false p b) by lra; rewrite Bool.andb_false_r.
    split; reflexivity. }
  destruct Hc as [Hc Hst]; rewrite Hs in Ha, Hc.
  pose proof (scenario3_selection P r N k p nr rc nt) as Hsel; cbv zeta in Hsel.
  fold res in Hsel; rewrite Hs, Ha, HB, Hc in Hsel; unfold selectBestOption in Hsel.
  rewrite (js_eq_false p 0), (js_le_false r nr), (js_lt_true nr r), (js_lt_true 0 p)
    in Hsel by lra.
  cbn [andb app map fst S3.reduce fold_left] in Hsel.
  repeat (cbn [S3.lookup Decimal.lt] in Hsel;
          match type of Hsel with
          | context [Rlt_dec ?x ?y] => destruct (Rlt_dec x y); [try lra|]
          end).
  all: cbn [S3.lookup] in Hsel; rewrite minus_Some, Rminus_diag in Hsel.
  all: injection Hsel as Hbest Hmax; repeat split; assumption.
Qed.

Lemma full_prepayment_picks_invalid_optionC_witness :
  let res := calculateScenario3 100 12 1 0 100 6 100 1 in
  (0 < 100 /\ 6 < 12 /\ calculateOutstandingPrincipal 100 12 1 0 = Some 100 /\ 100 <= 100 /\
   S3.totalCost (S3.optStay res) = Some 101 /\ S3.totalCost (S3.optionB res) = Some 201 /\
   101 <= 201) /\
  S3.bestOption res = S3.C /\
  S3.status (S3.optionC res) = Some "Invalid scenario"%string /\
  S3.maxSavings res = Some 0.
Proof.
  intros res.
  pose proof (calculateOutstanding_one_month 100 12 ltac:(lra)) as Hb.
  destruct scenario3_tie_example as [Hs [_ [HB _]]]; fold res in Hs, HB.
  split; [repeat split; lra || exact Hb || assumption |].
  exact (full_prepayment_picks_invalid_optionC 100 12 1 0 100 6 100 1 100 101 201
           ltac:(lra) ltac:(lra) Hb ltac:(lra) Hs HB ltac:(lra)).
Defined.
